(** * The aerodynamic coefficient generator base class of Tudat

    A shallow embedding of the class [AerodynamicCoefficientGenerator]
    (Astrodynamics/ForceModels/aerodynamicCoefficientGenerator.h) and the
    properties its specification states about it.

    The class keeps its tables behind raw pointers ([int*], [double**],
    [Eigen::VectorXd**]) and indexes them without any check.  The embedding
    therefore keeps the free store explicit: a finite map from addresses to
    scalar objects, on which [p[i]] is the object at address [p + i],
    whatever array that address belongs to.  C++ gives an access outside an
    array no meaning of its own; the store gives it the one it has on a flat
    memory, where the neighbouring object is read or overwritten.

    An [int] is a [Z]: the member functions of the header compute nothing
    with their [int]s but addresses. *)

From Stdlib Require Import ZArith Lia List Floats.
From stdpp Require Import base option list gmap.

Local Open Scope Z_scope.

(** ** The free store *)

(** A C++ [double]: IEEE 754 binary64.  The class only copies such values. *)
Abbreviation double := PrimFloat.float.

(** Addresses count objects, so that [p + i] is the address of [p[i]]. *)
Abbreviation address := Z.

Definition NULL : address := 0.

(** The scalar objects the class keeps on the free store. *)
Inductive object : Type :=
| Int (n : Z)
| Double (d : double)
| Pointer (p : address).

Arguments Double d%_float.

(** The generator object itself: one field per data member, in the order of
    the constructor's initialiser list. *)
Record AerodynamicCoefficientGenerator : Type := {
  vehicleCoefficients_ : address;                    (* Eigen::VectorXd** *)
  numberOfIndependentVariables_ : Z;                 (* int *)
  numberOfPointsPerIndependentVariables_ : address;  (* int* *)
  dataPointsOfIndependentVariables_ : address;       (* double** *)
  machIndex_ : Z;
  angleOfAttackIndex_ : Z;
  angleOfSideslipIndex_ : Z;
  reynoldsNumberIndex_ : Z;
  numberOfCases_ : Z
}.

(** What a member function runs on: the object, the free store, and the
    address from which [new] hands out fresh objects. *)
Record machine : Type := {
  this : AerodynamicCoefficientGenerator;
  freeStore : gmap Z object;
  freeStoreTop : address
}.

(** ** Member functions as state transformers that may fault *)

(** A call either returns a value and the machine it leaves behind, or
    faults ([None]).  A fault is where the model stops, not a check of the
    code: the access went to an address that holds no object, or read an
    object as another type than its own, where the code would hand back its
    bytes reinterpreted.  Nothing below is concluded from a fault of the
    second kind. *)
Definition M (A : Type) : Type := machine -> option (A * machine).

Definition ret {A : Type} (a : A) : M A := fun m => Some (a, m).

Definition fault {A : Type} : M A := fun _ => None.

Definition bind {A B : Type} (c : M A) (k : A -> M B) : M B :=
  fun m => match c m with
           | Some (a, m') => k a m'
           | None => None
           end.

Notation "'do' x <- c ; k" := (bind c (fun x => k))
  (at level 10, x name, c at level 100, k at level 200).

Definition self : M AerodynamicCoefficientGenerator := fun m => Some (this m, m).

Definition load (a : address) : M object :=
  fun m => match freeStore m !! a with
           | Some o => Some (o, m)
           | None => None
           end.

Definition loadInt (a : address) : M Z :=
  do o <- load a; match o with Int n => ret n | _ => fault end.

Definition loadDouble (a : address) : M double :=
  do o <- load a; match o with Double d => ret d | _ => fault end.

Definition loadPointer (a : address) : M address :=
  do o <- load a; match o with Pointer p => ret p | _ => fault end.

(** The machine with the object at address [a] replaced by [o]. *)
Definition poke (a : address) (o : object) (m : machine) : machine :=
  {| this := this m;
     freeStore := <[a := o]> (freeStore m);
     freeStoreTop := freeStoreTop m |}.

(** A store overwrites whatever object lives at the address; it faults only
    where the address holds no object at all. *)
Definition store (a : address) (o : object) : M unit :=
  fun m => match freeStore m !! a with
           | Some _ => Some (tt, poke a o m)
           | None => None
           end.

(** A call is an observation when it never changes the machine. *)
Definition observation {A : Type} (c : M A) : Prop :=
  forall (m : machine) (a : A) (m' : machine), c m = Some (a, m') -> m' = m.

(** ** The class, member by member *)

(** Default constructor (lines 87-90): the object it builds, in the
    surrounding free store.  The four role indices are initialised with the
    expression [-0]. *)
Definition AerodynamicCoefficientGenerator_ctor
    (h : gmap Z object) (top : address) : machine :=
  {| this := {| vehicleCoefficients_ := NULL;
                numberOfIndependentVariables_ := 0;
                numberOfPointsPerIndependentVariables_ := NULL;
                dataPointsOfIndependentVariables_ := NULL;
                machIndex_ := - 0;
                angleOfAttackIndex_ := - 0;
                angleOfSideslipIndex_ := - 0;
                reynoldsNumberIndex_ := - 0;
                numberOfCases_ := 0 |};
     freeStore := h;
     freeStoreTop := top |}.

(** Line 139. *)
Definition getNumberOfIndependentVariables : M Z :=
  do g <- self; ret (numberOfIndependentVariables_ g).

(** Lines 149-150. *)
Definition getNumberOfValuesOfIndependentVariable (independentVariable : Z) : M Z :=
  do g <- self;
  loadInt (numberOfPointsPerIndependentVariables_ g + independentVariable).

(** Line 157. *)
Definition getNumberOfMachPoints : M Z :=
  do g <- self;
  loadInt (numberOfPointsPerIndependentVariables_ g + machIndex_ g).

(** Lines 164-165. *)
Definition getNumberOfAngleOfAttackPoints : M Z :=
  do g <- self;
  loadInt (numberOfPointsPerIndependentVariables_ g + angleOfAttackIndex_ g).

(** Lines 172-173. *)
Definition getNumberOfAngleOfSideslipPoints : M Z :=
  do g <- self;
  loadInt (numberOfPointsPerIndependentVariables_ g + angleOfSideslipIndex_ g).

(** Lines 180-181. *)
Definition getNumberOfReynoldsNumberPoints : M Z :=
  do g <- self;
  loadInt (numberOfPointsPerIndependentVariables_ g + reynoldsNumberIndex_ g).

(** Lines 189-190.  The row selected is the one of [angleOfAttackIndex_]. *)
Definition setMachPoint (index : Z) (machPoint : double) : M unit :=
  do g <- self;
  do row <- loadPointer (dataPointsOfIndependentVariables_ g + angleOfAttackIndex_ g);
  store (row + index) (Double machPoint).

(** Lines 198-199. *)
Definition setAngleOfAttackPoint (index : Z) (angleOfAttackPoint : double) : M unit :=
  do g <- self;
  do row <- loadPointer (dataPointsOfIndependentVariables_ g + angleOfAttackIndex_ g);
  store (row + index) (Double angleOfAttackPoint).

(** Lines 207-208. *)
Definition setAngleOfSideslipPoint (index : Z) (angleOfSideslipPoint : double) : M unit :=
  do g <- self;
  do row <- loadPointer (dataPointsOfIndependentVariables_ g + angleOfSideslipIndex_ g);
  store (row + index) (Double angleOfSideslipPoint).

(** Lines 216-217. *)
Definition setReynoldsNumberPoint (index : Z) (reynoldsNumberPoint : double) : M unit :=
  do g <- self;
  do row <- loadPointer (dataPointsOfIndependentVariables_ g + reynoldsNumberIndex_ g);
  store (row + index) (Double reynoldsNumberPoint).

(** Lines 225-226. *)
Definition getMachPoint (index : Z) : M double :=
  do g <- self;
  do row <- loadPointer (dataPointsOfIndependentVariables_ g + machIndex_ g);
  loadDouble (row + index).

(** Lines 234-235. *)
Definition getAngleOfAttackPoint (index : Z) : M double :=
  do g <- self;
  do row <- loadPointer (dataPointsOfIndependentVariables_ g + angleOfAttackIndex_ g);
  loadDouble (row + index).

(** Lines 243-244. *)
Definition getAngleOfSideslipPoint (index : Z) : M double :=
  do g <- self;
  do row <- loadPointer (dataPointsOfIndependentVariables_ g + angleOfSideslipIndex_ g);
  loadDouble (row + index).

(** Lines 252-253. *)
Definition getReynoldsNumberPoint (index : Z) : M double :=
  do g <- self;
  do row <- loadPointer (dataPointsOfIndependentVariables_ g + reynoldsNumberIndex_ g);
  loadDouble (row + index).

(** Lines 264-265. *)
Definition getIndependentVariablePoint (independentVariable index : Z) : M double :=
  do g <- self;
  do row <- loadPointer (dataPointsOfIndependentVariables_ g + independentVariable);
  loadDouble (row + index).

(** The assignment [dataPointsOfIndependentVariables_[k][i] = v] spelled out
    on the free store: the row pointer of axis [k] is read, and the object
    at index [i] from it is replaced; either address holding no object, or
    the first one no pointer, is a fault. *)
Definition assignSample (k i : Z) (v : double) : M unit :=
  fun m =>
    match freeStore m !! (dataPointsOfIndependentVariables_ (this m) + k) with
    | Some (Pointer row) =>
        match freeStore m !! (row + i) with
        | Some _ => Some (tt, poke (row + i) (Double v) m)
        | None => None
        end
    | _ => None
    end.

(** ** The four physical roles *)

Inductive role : Type := Mach | AngleOfAttack | AngleOfSideslip | ReynoldsNumber.

(** The axis index the object holds for a role (lines 316-334). *)
Definition roleIndex (g : AerodynamicCoefficientGenerator) (r : role) : Z :=
  match r with
  | Mach => machIndex_ g
  | AngleOfAttack => angleOfAttackIndex_ g
  | AngleOfSideslip => angleOfSideslipIndex_ g
  | ReynoldsNumber => reynoldsNumberIndex_ g
  end.

(** The role-named member functions, selected by role. *)
Definition getNumberOfRolePoints (r : role) : M Z :=
  match r with
  | Mach => getNumberOfMachPoints
  | AngleOfAttack => getNumberOfAngleOfAttackPoints
  | AngleOfSideslip => getNumberOfAngleOfSideslipPoints
  | ReynoldsNumber => getNumberOfReynoldsNumberPoints
  end.

Definition getRolePoint (r : role) (index : Z) : M double :=
  match r with
  | Mach => getMachPoint index
  | AngleOfAttack => getAngleOfAttackPoint index
  | AngleOfSideslip => getAngleOfSideslipPoint index
  | ReynoldsNumber => getReynoldsNumberPoint index
  end.

Definition setRolePoint (r : role) (index : Z) (value : double) : M unit :=
  match r with
  | Mach => setMachPoint index value
  | AngleOfAttack => setAngleOfAttackPoint index value
  | AngleOfSideslip => setAngleOfSideslipPoint index value
  | ReynoldsNumber => setReynoldsNumberPoint index value
  end.

(** The axis whose row the point setter of a role selects (lines 189-217):
    its own for three of the roles, the angle-of-attack one for Mach. *)
Definition writtenAxis (g : AerodynamicCoefficientGenerator) (r : role) : Z :=
  match r with
  | Mach => angleOfAttackIndex_ g
  | AngleOfAttack => angleOfAttackIndex_ g
  | AngleOfSideslip => angleOfSideslipIndex_ g
  | ReynoldsNumber => reynoldsNumberIndex_ g
  end.

(** ** Reading the grid back from the free store *)

(** The [n] doubles that start at address [a], when all are there. *)
Fixpoint loadDoubles (h : gmap Z object) (a : address) (n : nat) : option (list double) :=
  match n with
  | O => Some []
  | S n' =>
      match h !! a with
      | Some (Double d) =>
          match loadDoubles h (a + 1) n' with
          | Some ds => Some (d :: ds)
          | None => None
          end
      | _ => None
      end
  end.

(** The sample values of axis [k]: the count stored for it, the row stored
    for it, and that many doubles in the row.  [None] when the axis has no
    such storage. *)
Definition samples (m : machine) (k : Z) : option (list double) :=
  match freeStore m !! (numberOfPointsPerIndependentVariables_ (this m) + k),
        freeStore m !! (dataPointsOfIndependentVariables_ (this m) + k) with
  | Some (Int c), Some (Pointer row) =>
      if 0 <=? c then loadDoubles (freeStore m) row (Z.to_nat c) else None
  | _, _ => None
  end.

(** Where the row of axis [k] lies: its first address and its length. *)
Definition rowExtent (m : machine) (k : Z) : option (address * Z) :=
  match freeStore m !! (numberOfPointsPerIndependentVariables_ (this m) + k),
        freeStore m !! (dataPointsOfIndependentVariables_ (this m) + k) with
  | Some (Int c), Some (Pointer row) => Some (row, c)
  | _, _ => None
  end.

(** Two axes are stored apart when both have a row and the rows share no
    address. *)
Definition apart (m : machine) (k k' : Z) : bool :=
  match rowExtent m k, rowExtent m k' with
  | Some (row, c), Some (row', c') => (row + c <=? row') || (row' + c' <=? row)
  | _, _ => false
  end.

(** ** A two-axis generator: Mach on axis 0, angle of attack on axis 1 *)

Definition twoAxes : machine :=
  {| this := {| vehicleCoefficients_ := NULL;
                numberOfIndependentVariables_ := 2;
                numberOfPointsPerIndependentVariables_ := 16;
                dataPointsOfIndependentVariables_ := 18;
                machIndex_ := 0;
                angleOfAttackIndex_ := 1;
                angleOfSideslipIndex_ := 0;
                reynoldsNumberIndex_ := 0;
                numberOfCases_ := 0 |};
     freeStore :=
       list_to_map
         [ (16, Int 3); (17, Int 4);
           (18, Pointer 20); (19, Pointer 23);
           (20, Double 0.5); (21, Double 1); (22, Double 2);
           (23, Double (-5)); (24, Double 0); (25, Double 5); (26, Double 10) ];
     freeStoreTop := 27 |}.


(** ** Operations whose bodies are not in the header

    The header declares [setNumberOfIndependentVariables], the four
    [setNumberOf...Points] and [variableIndicesToListIndex] and leaves their
    bodies to another file.  They are modelled here from the
    specification. *)

(** [new T[n]]: [n] fresh objects from [freeStoreTop] on, each initialised
    with [init]; a negative size faults. *)
Fixpoint fill (h : gmap Z object) (a : address) (n : nat) (init : object) : gmap Z object :=
  match n with
  | O => h
  | S n' => <[a := init]> (fill h (a + 1) n' init)
  end.

Definition newArray (n : Z) (init : object) : M address :=
  fun m => if 0 <=? n
           then Some (freeStoreTop m,
                      {| this := this m;
                         freeStore := fill (freeStore m) (freeStoreTop m) (Z.to_nat n) init;
                         freeStoreTop := freeStoreTop m + n |})
           else None.

Definition setSelf (g : AerodynamicCoefficientGenerator) : M unit :=
  fun m => Some (tt, {| this := g; freeStore := freeStore m; freeStoreTop := freeStoreTop m |}).

(** The [n] ints that start at address [a], when all are there. *)
Fixpoint loadInts (h : gmap Z object) (a : address) (n : nat) : option (list Z) :=
  match n with
  | O => Some []
  | S n' =>
      match h !! a with
      | Some (Int c) =>
          match loadInts h (a + 1) n' with
          | Some cs => Some (c :: cs)
          | None => None
          end
      | _ => None
      end
  end.

(** The per-axis sample counts
    [numberOfPointsPerIndependentVariables_[0 .. numberOfIndependentVariables_)]. *)
Definition sampleCounts (m : machine) : option (list Z) :=
  loadInts (freeStore m) (numberOfPointsPerIndependentVariables_ (this m))
           (Z.to_nat (numberOfIndependentVariables_ (this m))).

(** Modelled from the spec: the body of [setNumberOfIndependentVariables]
    (declared at line 104).  Section 4.1, [setVariableCount(n)]: it declares
    how many axes exist, [n >= 0], a negative count being a fatal
    precondition violation; section 3: the grid then has that many axes.
    Each axis starts with sample count 0 and no sample row. *)
Definition setNumberOfIndependentVariables (numberOfVariables : Z) : M unit :=
  do g <- self;
  do counts <- newArray numberOfVariables (Int 0);
  do rows <- newArray numberOfVariables (Pointer NULL);
  setSelf {| vehicleCoefficients_ := vehicleCoefficients_ g;
             numberOfIndependentVariables_ := numberOfVariables;
             numberOfPointsPerIndependentVariables_ := counts;
             dataPointsOfIndependentVariables_ := rows;
             machIndex_ := machIndex_ g;
             angleOfAttackIndex_ := angleOfAttackIndex_ g;
             angleOfSideslipIndex_ := angleOfSideslipIndex_ g;
             reynoldsNumberIndex_ := reynoldsNumberIndex_ g;
             numberOfCases_ := numberOfCases_ g |}.

(** Modelled from the spec: the generic operation behind the four
    [setNumberOf...Points] (declared at lines 111-132).  Section 4.2,
    [setSampleCount(axis, count)]: it allocates storage for [count] sample
    values on [axis], [count >= 0], replacing the axis's previous row;
    section 7: an axis index out of range is a precondition violation, and
    a change of a sample count under an allocated table is reported
    (InconsistentSizing) rather than carried out. *)
Definition setSampleCount (axis count : Z) : M unit :=
  do g <- self;
  if (vehicleCoefficients_ g =? NULL)
     && (0 <=? axis) && (axis <? numberOfIndependentVariables_ g)
  then
    do row <- newArray count (Double 0);
    do _ <- store (numberOfPointsPerIndependentVariables_ g + axis) (Int count);
    store (dataPointsOfIndependentVariables_ g + axis) (Pointer row)
  else fault.

(** Modelled from the spec: section 4.2, the role-named wrappers pass the
    role's axis index to the generic operation. *)
Definition setNumberOfMachPoints (numberOfMachPoints : Z) : M unit :=
  do g <- self; setSampleCount (machIndex_ g) numberOfMachPoints.

Definition setNumberOfAngleOfAttackPoints (numberOfAngleOfAttackPoints : Z) : M unit :=
  do g <- self; setSampleCount (angleOfAttackIndex_ g) numberOfAngleOfAttackPoints.

Definition setNumberOfAngleOfSideslipPoints (numberOfAngleOfSideslipPoints : Z) : M unit :=
  do g <- self; setSampleCount (angleOfSideslipIndex_ g) numberOfAngleOfSideslipPoints.

Definition setNumberOfReynoldsNumberPoints (numberOfReynoldsNumberPoints : Z) : M unit :=
  do g <- self; setSampleCount (reynoldsNumberIndex_ g) numberOfReynoldsNumberPoints.

(** The product of the sample counts. *)
Definition product (cs : list Z) : Z := foldr Z.mul 1 cs.

(** Modelled from the spec: the index arithmetic of
    [variableIndicesToListIndex] (declared at line 289).  Section 4.3: a
    mixed-radix positional encoding in which axis 0 varies slowest; the
    stride of an axis is the product of the sample counts of the axes that
    vary faster than it, and the flat offset is the sum of
    [index_k * stride_k] over all axes. *)
Fixpoint listIndex (counts indices : list Z) : Z :=
  match counts, indices with
  | _ :: counts', i :: indices' => i * product counts' + listIndex counts' indices'
  | _, _ => 0
  end.

(** The way back (section 2: "and back conceptually"): the index tuple of a
    flat offset. *)
Fixpoint variableIndices (counts : list Z) (offset : Z) : list Z :=
  match counts with
  | [] => []
  | _ :: counts' =>
      offset / product counts' :: variableIndices counts' (offset mod product counts')
  end.

(** Modelled from the spec: the member function itself, which takes the
    index tuple as an [int*] and reads the sample counts of the object. *)
Definition variableIndicesToListIndex (independentVariableIndices : address) : M Z :=
  fun m =>
    match sampleCounts m,
          loadInts (freeStore m) independentVariableIndices
                   (Z.to_nat (numberOfIndependentVariables_ (this m))) with
    | Some counts, Some indices => Some (listIndex counts indices, m)
    | _, _ => None
    end.

(** An index tuple is valid for the counts when it has one index per axis,
    each within its axis. *)
Definition validIndices (counts indices : list Z) : Prop :=
  Forall2 (fun c i => 0 <= i < c) counts indices.

(** ** The states a generator can reach *)

(** Modelled from the spec: the assignment of a role to an axis.  Section
    4.1: the assignment is fixed by the derived class's design; the class
    comment (lines 66-72) has the derived class supply the role's index
    member.  The header has no member function for it: the derived class
    writes the protected index, and nothing validates the value. *)
Definition withRoleIndex (g : AerodynamicCoefficientGenerator) (r : role) (axis : Z)
  : AerodynamicCoefficientGenerator :=
  {| vehicleCoefficients_ := vehicleCoefficients_ g;
     numberOfIndependentVariables_ := numberOfIndependentVariables_ g;
     numberOfPointsPerIndependentVariables_ := numberOfPointsPerIndependentVariables_ g;
     dataPointsOfIndependentVariables_ := dataPointsOfIndependentVariables_ g;
     machIndex_ := match r with Mach => axis | _ => machIndex_ g end;
     angleOfAttackIndex_ := match r with AngleOfAttack => axis | _ => angleOfAttackIndex_ g end;
     angleOfSideslipIndex_ := match r with AngleOfSideslip => axis | _ => angleOfSideslipIndex_ g end;
     reynoldsNumberIndex_ := match r with ReynoldsNumber => axis | _ => reynoldsNumberIndex_ g end;
     numberOfCases_ := numberOfCases_ g |}.

Definition assignRole (r : role) (axis : Z) : M unit :=
  do g <- self; setSelf (withRoleIndex g r axis).

(** The state-changing operations on a generator. *)
Inductive call : Type :=
| AssignRole (r : role) (axis : Z)
| SetNumberOfIndependentVariables (numberOfVariables : Z)
| SetNumberOfPoints (r : role) (numberOfPoints : Z)
| SetPoint (r : role) (index : Z) (value : double).

Definition perform (c : call) : M unit :=
  match c with
  | AssignRole r axis => assignRole r axis
  | SetNumberOfIndependentVariables n => setNumberOfIndependentVariables n
  | SetNumberOfPoints Mach n => setNumberOfMachPoints n
  | SetNumberOfPoints AngleOfAttack n => setNumberOfAngleOfAttackPoints n
  | SetNumberOfPoints AngleOfSideslip n => setNumberOfAngleOfSideslipPoints n
  | SetNumberOfPoints ReynoldsNumber n => setNumberOfReynoldsNumberPoints n
  | SetPoint r i v => setRolePoint r i v
  end.

Fixpoint performAll (calls : list call) : M unit :=
  match calls with
  | [] => ret tt
  | c :: calls' => do _ <- perform c; performAll calls'
  end.





(** The machine a sequence of calls leaves behind when run on a fresh object
    (the fresh object itself if a call faults). *)
Definition machineAfter (calls : list call) (h : gmap Z object) (top : address) : machine :=
  match performAll calls (AerodynamicCoefficientGenerator_ctor h top) with
  | Some (_, m) => m
  | None => AerodynamicCoefficientGenerator_ctor h top
  end.

(** The set-up of a two-axis generator: Mach on axis 0 with three samples,
    angle of attack on axis 1 with four; the other two roles are not used. *)
Definition twoAxesSetup : list call :=
  [ SetNumberOfIndependentVariables 2;
    AssignRole Mach 0; AssignRole AngleOfAttack 1;
    SetNumberOfPoints Mach 3; SetNumberOfPoints AngleOfAttack 4 ].





(** ** Proof steps *)

(** Two addresses that hold objects of different types are different. *)
Ltac distinct_cells :=
  let E := fresh "E" in
  intros E; rewrite E in *; congruence.



(** ** Loads and stores *)

Section Primitives.

Variable m : machine.

Lemma loadInt_at (a : address) (n : Z) :
  freeStore m !! a = Some (Int n) -> loadInt a m = Some (n, m).
Proof. intros H. unfold loadInt, bind, load. rewrite H. reflexivity. Qed.

Lemma loadDouble_at (a : address) (d : double) :
  freeStore m !! a = Some (Double d) -> loadDouble a m = Some (d, m).
Proof. intros H. unfold loadDouble, bind, load. rewrite H. reflexivity. Qed.

Lemma loadPointer_at (a : address) (p : address) :
  freeStore m !! a = Some (Pointer p) -> loadPointer a m = Some (p, m).
Proof. intros H. unfold loadPointer, bind, load. rewrite H. reflexivity. Qed.

Lemma loadInt_inv (a : address) (n : Z) (m' : machine) :
  loadInt a m = Some (n, m') -> m' = m /\ freeStore m !! a = Some (Int n).
Proof.
  unfold loadInt, bind, load, ret, fault.
  destruct (freeStore m !! a) as [[c|d|p]|]; intros H; inversion H; auto.
Qed.

Lemma loadDouble_inv (a : address) (d : double) (m' : machine) :
  loadDouble a m = Some (d, m') -> m' = m /\ freeStore m !! a = Some (Double d).
Proof.
  unfold loadDouble, bind, load, ret, fault.
  destruct (freeStore m !! a) as [[c|d'|p]|]; intros H; inversion H; auto.
Qed.

Lemma loadPointer_inv (a : address) (p : address) (m' : machine) :
  loadPointer a m = Some (p, m') -> m' = m /\ freeStore m !! a = Some (Pointer p).
Proof.
  unfold loadPointer, bind, load, ret, fault.
  destruct (freeStore m !! a) as [[c|d|p']|]; intros H; inversion H; auto.
Qed.

Lemma store_at (a : address) (o old : object) :
  freeStore m !! a = Some old ->
  store a o m = Some (tt, poke a o m).
Proof. intros H. unfold store. rewrite H. reflexivity. Qed.

End Primitives.

Lemma observation_loadInt_after_self (f : AerodynamicCoefficientGenerator -> address) :
  observation (do g <- self; loadInt (f g)).
Proof.
  intros m a m'. unfold bind at 1, self. intros H.
  apply loadInt_inv in H. tauto.
Qed.

Lemma observation_row_read (f : AerodynamicCoefficientGenerator -> address) (i : Z) :
  observation (do g <- self; do row <- loadPointer (f g); loadDouble (row + i)).
Proof.
  intros m a m'. unfold bind at 1, self. unfold bind.
  destruct (loadPointer (f (this m)) m) as [[row m1]|] eqn:Hrow; [|discriminate].
  apply loadPointer_inv in Hrow as [-> _]. intros H.
  apply loadDouble_inv in H. tauto.
Qed.

(** Every getter of the class is an observation, whatever its arguments. *)
Lemma getters_are_observations :
  observation getNumberOfIndependentVariables /\
  (forall k, observation (getNumberOfValuesOfIndependentVariable k)) /\
  (forall k i, observation (getIndependentVariablePoint k i)) /\
  (forall r, observation (getNumberOfRolePoints r)) /\
  (forall r i, observation (getRolePoint r i)).
Proof.
  repeat split.
  - intros m a m' H. inversion H. reflexivity.
  - intros k. apply observation_loadInt_after_self.
  - intros k i. apply (observation_row_read (fun g => _ g + k)).
  - intros []; apply observation_loadInt_after_self.
  - intros [] i; apply observation_row_read.
Qed.

(** ** The sample rows *)

Lemma loadDoubles_length (h : gmap Z object) (n : nat) :
  forall (a : address) (ds : list double),
    loadDoubles h a n = Some ds -> length ds = n.
Proof.
  induction n as [|n IH]; intros a ds; simpl.
  - intros H. inversion H. reflexivity.
  - destruct (h !! a) as [[c|d|p]|]; try discriminate.
    destruct (loadDoubles h (a + 1) n) as [ds'|] eqn:E; [|discriminate].
    intros H. inversion H. simpl. f_equal. eauto.
Qed.

Lemma loadDoubles_lookup (h : gmap Z object) (n : nat) :
  forall (a : address) (ds : list double) (j : nat) (d : double),
    loadDoubles h a n = Some ds -> ds !! j = Some d ->
    h !! (a + Z.of_nat j) = Some (Double d).
Proof.
  induction n as [|n IH]; intros a ds j d; simpl.
  - intros H. inversion H. subst. discriminate.
  - destruct (h !! a) as [[c|d0|p]|] eqn:Ha; try discriminate.
    destruct (loadDoubles h (a + 1) n) as [ds'|] eqn:E; [|discriminate].
    intros H Hj. inversion H. subst ds. destruct j as [|j]; simpl in Hj.
    + inversion Hj. subst. rewrite Z.add_0_r. exact Ha.
    + replace (a + Z.of_nat (S j)) with (a + 1 + Z.of_nat j) by lia. eauto.
Qed.

(** What [samples m k = Some ds] says about the free store. *)
Lemma samples_inv (m : machine) (k : Z) (ds : list double) :
  samples m k = Some ds ->
  exists row : address,
    freeStore m !! (numberOfPointsPerIndependentVariables_ (this m) + k)
      = Some (Int (Z.of_nat (length ds))) /\
    freeStore m !! (dataPointsOfIndependentVariables_ (this m) + k)
      = Some (Pointer row) /\
    loadDoubles (freeStore m) row (length ds) = Some ds.
Proof.
  unfold samples.
  destruct (freeStore m !! (numberOfPointsPerIndependentVariables_ (this m) + k))
    as [[c|d|p]|]; try discriminate.
  destruct (freeStore m !! (dataPointsOfIndependentVariables_ (this m) + k))
    as [[c'|d|row]|]; try discriminate.
  destruct (0 <=? c) eqn:Hc; [|discriminate].
  intros H. exists row. pose proof (loadDoubles_length _ _ _ _ H) as Hlen.
  apply Z.leb_le in Hc. rewrite Hlen, Z2Nat.id by exact Hc. auto.
Qed.

(** A sample of an axis that has storage, and the count of that axis, are
    what the generic getters return. *)
Lemma getIndependentVariablePoint_in_range (m : machine) (k i : Z) (ds : list double) (d : double) :
  samples m k = Some ds -> 0 <= i -> ds !! Z.to_nat i = Some d ->
  getIndependentVariablePoint k i m = Some (d, m).
Proof.
  intros Hs Hi Hd. destruct (samples_inv _ _ _ Hs) as (row & _ & Hrow & Hds).
  unfold getIndependentVariablePoint, bind at 1, self. unfold bind.
  rewrite (loadPointer_at _ _ _ Hrow). apply loadDouble_at.
  rewrite <- (Z2Nat.id i) by exact Hi. eapply loadDoubles_lookup; eauto.
Qed.

Lemma getNumberOfValuesOfIndependentVariable_allocated (m : machine) (k : Z) (ds : list double) :
  samples m k = Some ds ->
  getNumberOfValuesOfIndependentVariable k m = Some (Z.of_nat (length ds), m).
Proof.
  intros Hs. destruct (samples_inv _ _ _ Hs) as (row & Hc & _ & _).
  unfold getNumberOfValuesOfIndependentVariable, bind, self.
  fold (bind (load (numberOfPointsPerIndependentVariables_ (this m) + k))
             (fun o => match o with Int n => ret n | _ => fault end)).
  apply (loadInt_at _ _ _ Hc).
Qed.

(** ** The role-named getters *)

Lemma getRolePoint_generic (m : machine) (r : role) (i : Z) :
  getRolePoint r i m = getIndependentVariablePoint (roleIndex (this m) r) i m.
Proof. destruct r; reflexivity. Qed.

Lemma getNumberOfRolePoints_generic (m : machine) (r : role) :
  getNumberOfRolePoints r m = getNumberOfValuesOfIndependentVariable (roleIndex (this m) r) m.
Proof. destruct r; reflexivity. Qed.

(** C4: each role-named getter is the generic accessor applied at the axis
    index the object holds for that role: the four point getters are
    [getIndependentVariablePoint] and the four count getters are
    [getNumberOfValuesOfIndependentVariable] at [machIndex_],
    [angleOfAttackIndex_], [angleOfSideslipIndex_] and
    [reynoldsNumberIndex_].  This holds in every state and for every index,
    including those at which both sides fault. *)
Theorem role_getters_pass_through (m : machine) (i : Z) :
  getMachPoint i m
    = getIndependentVariablePoint (machIndex_ (this m)) i m /\
  getAngleOfAttackPoint i m
    = getIndependentVariablePoint (angleOfAttackIndex_ (this m)) i m /\
  getAngleOfSideslipPoint i m
    = getIndependentVariablePoint (angleOfSideslipIndex_ (this m)) i m /\
  getReynoldsNumberPoint i m
    = getIndependentVariablePoint (reynoldsNumberIndex_ (this m)) i m /\
  getNumberOfMachPoints m
    = getNumberOfValuesOfIndependentVariable (machIndex_ (this m)) m /\
  getNumberOfAngleOfAttackPoints m
    = getNumberOfValuesOfIndependentVariable (angleOfAttackIndex_ (this m)) m /\
  getNumberOfAngleOfSideslipPoints m
    = getNumberOfValuesOfIndependentVariable (angleOfSideslipIndex_ (this m)) m /\
  getNumberOfReynoldsNumberPoints m
    = getNumberOfValuesOfIndependentVariable (reynoldsNumberIndex_ (this m)) m.
Proof.
  pose proof (getRolePoint_generic m) as P.
  pose proof (getNumberOfRolePoints_generic m) as N.
  repeat split;
    first [ apply (P Mach) | apply (P AngleOfAttack) | apply (P AngleOfSideslip)
          | apply (P ReynoldsNumber) | apply (N Mach) | apply (N AngleOfAttack)
          | apply (N AngleOfSideslip) | apply (N ReynoldsNumber) ].
Qed.

(** C10: no getter changes the generator.  On an axis [k] that has storage
    [ds], and for a sample index within it, the count getters and the point
    getters (the generic ones at [k], and those of every role whose index is
    [k]) return the stored count and sample together with the very machine
    they were called on; [getNumberOfIndependentVariables] does so in every
    state. *)
Theorem getters_leave_state_unchanged
    (m : machine) (k i : Z) (ds : list double) (d : double) :
  samples m k = Some ds -> 0 <= i -> ds !! Z.to_nat i = Some d ->
  getNumberOfIndependentVariables m = Some (numberOfIndependentVariables_ (this m), m) /\
  getNumberOfValuesOfIndependentVariable k m = Some (Z.of_nat (length ds), m) /\
  getIndependentVariablePoint k i m = Some (d, m) /\
  forall r : role, roleIndex (this m) r = k ->
    getNumberOfRolePoints r m = Some (Z.of_nat (length ds), m) /\
    getRolePoint r i m = Some (d, m).
Proof.
  intros Hs Hi Hd.
  pose proof (getNumberOfValuesOfIndependentVariable_allocated m k ds Hs) as Hcount.
  pose proof (getIndependentVariablePoint_in_range m k i ds d Hs Hi Hd) as Hpoint.
  split; [reflexivity|]. split; [exact Hcount|]. split; [exact Hpoint|].
  intros r Hr. rewrite getNumberOfRolePoints_generic, getRolePoint_generic, Hr. auto.
Qed.

Lemma getters_leave_state_unchanged_witness :
  getNumberOfIndependentVariables twoAxes = Some (2, twoAxes) /\
  getNumberOfValuesOfIndependentVariable 0 twoAxes = Some (3, twoAxes) /\
  getIndependentVariablePoint 0 1 twoAxes = Some (1%float, twoAxes) /\
  forall r : role, roleIndex (this twoAxes) r = 0 ->
    getNumberOfRolePoints r twoAxes = Some (3, twoAxes) /\
    getRolePoint r 1 twoAxes = Some (1%float, twoAxes).
Proof.
  apply (getters_leave_state_unchanged twoAxes 0 1 [0.5; 1; 2]%float 1%float).
  - vm_compute. reflexivity.
  - lia.
  - reflexivity.
Defined.

(** ** The sample-point setters *)

(** What the four point setters do, each on the row it selects. *)
Lemma setRolePoint_assignSample (m : machine) (r : role) (i : Z) (v : double) :
  setRolePoint r i v m = assignSample (writtenAxis (this m) r) i v m.
Proof.
  destruct r; cbn [setRolePoint writtenAxis];
    unfold setMachPoint, setAngleOfAttackPoint, setAngleOfSideslipPoint,
           setReynoldsNumberPoint, assignSample, loadPointer;
    unfold bind, self, load, store, ret, fault;
    (destruct (freeStore m !! _) as [[c|d|row]|]; reflexivity).
Qed.

(** C8: [setMachPoint] and [setAngleOfAttackPoint] are the same function:
    in every state, for every index and value, they return the same result
    and leave the same machine, and that result is the one of the assignment
    [dataPointsOfIndependentVariables_[angleOfAttackIndex_][index] = value]. *)
Theorem setMachPoint_is_setAngleOfAttackPoint (m : machine) (i : Z) (v : double) :
  setMachPoint i v m = setAngleOfAttackPoint i v m /\
  setMachPoint i v m = assignSample (angleOfAttackIndex_ (this m)) i v m /\
  setAngleOfAttackPoint i v m = assignSample (angleOfAttackIndex_ (this m)) i v m.
Proof.
  pose proof (setRolePoint_assignSample m Mach i v) as HM.
  pose proof (setRolePoint_assignSample m AngleOfAttack i v) as HA.
  cbn [setRolePoint writtenAxis] in HM, HA.
  split; [congruence|]. split; assumption.
Qed.

(** C9: the freshly constructed object has no independent variable, no
    case, three null tables, and the index 0 for each of the four roles,
    which therefore all designate the same axis index. *)
Theorem default_constructor_state (h : gmap Z object) (top : address) :
  getNumberOfIndependentVariables (AerodynamicCoefficientGenerator_ctor h top)
    = Some (0, AerodynamicCoefficientGenerator_ctor h top) /\
  numberOfCases_ (this (AerodynamicCoefficientGenerator_ctor h top)) = 0 /\
  vehicleCoefficients_ (this (AerodynamicCoefficientGenerator_ctor h top)) = NULL /\
  numberOfPointsPerIndependentVariables_ (this (AerodynamicCoefficientGenerator_ctor h top)) = NULL /\
  dataPointsOfIndependentVariables_ (this (AerodynamicCoefficientGenerator_ctor h top)) = NULL /\
  machIndex_ (this (AerodynamicCoefficientGenerator_ctor h top)) = 0 /\
  angleOfAttackIndex_ (this (AerodynamicCoefficientGenerator_ctor h top)) = 0 /\
  angleOfSideslipIndex_ (this (AerodynamicCoefficientGenerator_ctor h top)) = 0 /\
  reynoldsNumberIndex_ (this (AerodynamicCoefficientGenerator_ctor h top)) = 0.
Proof. repeat split. Qed.

(** C1: on the two-axis generator, whose Mach and angle-of-attack roles sit
    on the distinct axes 0 and 1, [setMachPoint 1 1.5] returns normally,
    leaves the Mach samples as they were and replaces the second
    angle-of-attack sample. *)
Theorem setMachPoint_writes_angleOfAttack_row :
  machIndex_ (this twoAxes) = 0 /\ angleOfAttackIndex_ (this twoAxes) = 1 /\
  samples twoAxes 0 = Some [0.5; 1; 2]%float /\
  samples twoAxes 1 = Some [-5; 0; 5; 10]%float /\
  exists m' : machine,
    setMachPoint 1 1.5%float twoAxes = Some (tt, m') /\
    samples m' 0 = Some [0.5; 1; 2]%float /\
    samples m' 1 = Some [-5; 1.5; 5; 10]%float.
Proof.
  do 4 (split; [vm_compute; reflexivity|]).
  eexists. split; [vm_compute; reflexivity|].
  split; vm_compute; reflexivity.
Qed.

(** C2: on the same generator, [getMachPoint 1] after [setMachPoint 1 1.5]
    returns the Mach sample that was there before the call, 1, and not the
    value just set. *)
Theorem getMachPoint_after_setMachPoint_is_stale :
  exists m' : machine,
    setMachPoint 1 1.5%float twoAxes = Some (tt, m') /\
    getMachPoint 1 m' = Some (1%float, m') /\
    getMachPoint 1 m' <> Some (1.5%float, m').
Proof.
  eexists. split; [vm_compute; reflexivity|].
  split; [vm_compute; reflexivity|].
  intros H. apply (f_equal (fun o => match o with
                                     | Some (d, _) => PrimFloat.eqb d 1.5%float
                                     | None => false
                                     end)) in H.
  vm_compute in H. discriminate H.
Qed.

(** ** Writing into a sample row *)

Lemma loadDoubles_poke_outside (h : gmap Z object) (b : address) (o : object) (n : nat) :
  forall a : address,
    b < a \/ a + Z.of_nat n <= b ->
    loadDoubles (<[b := o]> h) a n = loadDoubles h a n.
Proof.
  induction n as [|n IH]; intros a Hb; simpl; [reflexivity|].
  rewrite lookup_insert_ne by lia.
  destruct (h !! a) as [[c|d|p]|]; try reflexivity.
  rewrite (IH (a + 1)) by lia. reflexivity.
Qed.

Lemma loadDoubles_poke_inside (h : gmap Z object) (v : double) (n : nat) :
  forall (a : address) (ds : list double) (j : nat),
    loadDoubles h a n = Some ds -> (j < n)%nat ->
    loadDoubles (<[a + Z.of_nat j := Double v]> h) a n = Some (<[j := v]> ds).
Proof.
  induction n as [|n IH]; intros a ds j; simpl; [lia|].
  destruct (h !! a) as [[c|d|p]|] eqn:Ha; try discriminate.
  destruct (loadDoubles h (a + 1) n) as [ds'|] eqn:E; [|discriminate].
  intros H Hj. inversion H. subst ds. destruct j as [|j].
  - replace (a + Z.of_nat 0) with a by lia. rewrite lookup_insert_eq.
    rewrite loadDoubles_poke_outside, E by lia. reflexivity.
  - rewrite lookup_insert_ne by lia. rewrite Ha.
    replace (a + Z.of_nat (S j)) with (a + 1 + Z.of_nat j) by lia.
    rewrite (IH (a + 1) ds' j E) by lia. reflexivity.
Qed.

Section Poke.

Variables (m : machine) (a : address) (v : double).

(** Overwriting a double leaves an axis as it was when the double is not in
    the row of that axis. *)
Lemma samples_poke_outside (d0 : double) (k : Z) (row : address) (c : Z) :
  freeStore m !! a = Some (Double d0) ->
  rowExtent m k = Some (row, c) ->
  a < row \/ row + c <= a ->
  samples (poke a (Double v) m) k = samples m k.
Proof.
  intros Ha Hext Hout. unfold rowExtent in Hext. unfold samples, poke. simpl.
  destruct (freeStore m !! (numberOfPointsPerIndependentVariables_ (this m) + k))
    as [[c0|d|p]|] eqn:Hc; try discriminate.
  destruct (freeStore m !! (dataPointsOfIndependentVariables_ (this m) + k))
    as [[c1|d|row0]|] eqn:Hrow; try discriminate.
  inversion Hext. subst row0 c0.
  rewrite !lookup_insert_ne by distinct_cells. rewrite Hc, Hrow.
  destruct (0 <=? c) eqn:Hpos; [|reflexivity].
  apply Z.leb_le in Hpos.
  apply loadDoubles_poke_outside. rewrite Z2Nat.id by exact Hpos. exact Hout.
Qed.

(** Overwriting the double at index [i] of the row of an axis replaces that
    sample of the axis. *)
Lemma samples_poke_inside (k i : Z) (ds : list double) (row : address) :
  samples m k = Some ds ->
  freeStore m !! (dataPointsOfIndependentVariables_ (this m) + k) = Some (Pointer row) ->
  0 <= i -> (Z.to_nat i < length ds)%nat -> a = row + i ->
  samples (poke a (Double v) m) k = Some (<[Z.to_nat i := v]> ds).
Proof.
  intros Hs Hrow Hi Hlt ->.
  destruct (samples_inv _ _ _ Hs) as (row0 & Hc & Hrow0 & Hds).
  rewrite Hrow in Hrow0. inversion Hrow0. subst row0.
  destruct (lookup_lt_is_Some_2 ds (Z.to_nat i) Hlt) as [d Hd].
  pose proof (loadDoubles_lookup _ _ _ _ _ _ Hds Hd) as Hcell.
  rewrite Z2Nat.id in Hcell by exact Hi.
  unfold samples, poke. simpl.
  rewrite !lookup_insert_ne by distinct_cells.
  rewrite Hc, Hrow.
  replace (0 <=? Z.of_nat (length ds)) with true by (symmetry; apply Z.leb_le; lia).
  rewrite Nat2Z.id. rewrite <- (Z2Nat.id i) at 1 by exact Hi.
  apply loadDoubles_poke_inside; assumption.
Qed.

End Poke.

(** A point setter, called with an index inside the row it selects, stores
    the value there and returns. *)
Lemma setRolePoint_in_range (m : machine) (r : role) (i : Z) (v : double) (ds : list double) :
  samples m (writtenAxis (this m) r) = Some ds ->
  0 <= i -> (Z.to_nat i < length ds)%nat ->
  exists row : address,
    freeStore m !! (dataPointsOfIndependentVariables_ (this m) + writtenAxis (this m) r)
      = Some (Pointer row) /\
    setRolePoint r i v m = Some (tt, poke (row + i) (Double v) m).
Proof.
  intros Hs Hi Hlt.
  destruct (samples_inv _ _ _ Hs) as (row & _ & Hrow & Hds).
  destruct (lookup_lt_is_Some_2 ds (Z.to_nat i) Hlt) as [d Hd].
  pose proof (loadDoubles_lookup _ _ _ _ _ _ Hds Hd) as Hcell.
  rewrite Z2Nat.id in Hcell by exact Hi.
  exists row. split; [exact Hrow|].
  destruct r; simpl in *;
    unfold setMachPoint, setAngleOfAttackPoint, setAngleOfSideslipPoint,
           setReynoldsNumberPoint, bind at 1, self; unfold bind;
    rewrite (loadPointer_at _ _ _ Hrow); apply (store_at _ _ _ _ Hcell).
Qed.

Lemma samples_rowExtent (m : machine) (k : Z) (ds : list double) :
  samples m k = Some ds ->
  exists row : address,
    rowExtent m k = Some (row, Z.of_nat (length ds)) /\
    freeStore m !! (dataPointsOfIndependentVariables_ (this m) + k) = Some (Pointer row).
Proof.
  intros Hs. destruct (samples_inv _ _ _ Hs) as (row & Hc & Hrow & _).
  exists row. unfold rowExtent. rewrite Hc, Hrow. auto.
Qed.

(** What a point setter does when called with an index inside the row it
    selects: it returns, the object itself is as before, the selected axis
    has the new sample at that index, and every axis stored apart from the
    selected one is as before. *)
Lemma setRolePoint_effect (m : machine) (r : role) (i : Z) (v : double) (ds : list double) :
  samples m (writtenAxis (this m) r) = Some ds ->
  0 <= i -> (Z.to_nat i < length ds)%nat ->
  exists m' : machine,
    setRolePoint r i v m = Some (tt, m') /\
    this m' = this m /\
    samples m' (writtenAxis (this m) r) = Some (<[Z.to_nat i := v]> ds) /\
    forall k' : Z,
      apart m (writtenAxis (this m) r) k' = true -> samples m' k' = samples m k'.
Proof.
  intros Hs Hi Hlt.
  destruct (setRolePoint_in_range m r i v ds Hs Hi Hlt) as (row & Hrow & Hset).
  exists (poke (row + i) (Double v) m). split; [exact Hset|]. split; [reflexivity|].
  split.
  - eapply samples_poke_inside; eauto.
  - intros k' Hapart.
    destruct (samples_rowExtent _ _ _ Hs) as (row0 & Hext & Hrow0).
    rewrite Hrow in Hrow0. inversion Hrow0. subst row0.
    unfold apart in Hapart. rewrite Hext in Hapart.
    destruct (rowExtent m k') as [[row' c']|] eqn:Hext'; [|discriminate].
    destruct (samples_inv _ _ _ Hs) as (row1 & _ & Hrow1 & Hds).
    rewrite Hrow in Hrow1. inversion Hrow1. subst row1.
    destruct (lookup_lt_is_Some_2 ds (Z.to_nat i) Hlt) as [d Hd].
    pose proof (loadDoubles_lookup _ _ _ _ _ _ Hds Hd) as Hcell.
    rewrite Z2Nat.id in Hcell by exact Hi.
    apply (samples_poke_outside m (row + i) v d k' row' c' Hcell Hext').
    apply orb_true_iff in Hapart. rewrite !Z.leb_le in Hapart. lia.
Qed.

(** ** The index mapper *)

Lemma product_cons (c : Z) (counts : list Z) : product (c :: counts) = c * product counts.
Proof. reflexivity. Qed.

Lemma product_positive (counts : list Z) :
  Forall (fun c => 1 <= c) counts -> 1 <= product counts.
Proof.
  induction 1 as [|c counts Hc _ IH]; [cbn; lia|].
  rewrite product_cons. nia.
Qed.

(** A valid tuple exists only over positive counts. *)
Lemma validIndices_positive (counts indices : list Z) :
  validIndices counts indices -> Forall (fun c => 1 <= c) counts.
Proof.
  induction 1 as [|c i counts indices Hi _ IH]; constructor; [lia|assumption].
Qed.

Lemma validIndices_length (counts indices : list Z) :
  validIndices counts indices -> length indices = length counts.
Proof. intros H. symmetry. exact (Forall2_length _ _ _ H). Qed.

Lemma listIndex_range (counts indices : list Z) :
  validIndices counts indices -> 0 <= listIndex counts indices < product counts.
Proof.
  induction 1 as [|c i counts indices Hi _ IH]; [cbn; lia|].
  cbn [listIndex]. rewrite product_cons. nia.
Qed.

(** Two digits over the same stride: equal sums have equal digits. *)
Lemma digits_unique (stride i j r r' : Z) :
  0 <= r < stride -> 0 <= r' < stride ->
  i * stride + r = j * stride + r' -> i = j /\ r = r'.
Proof. intros Hr Hr' H. assert (i = j) by nia. subst. lia. Qed.

Lemma listIndex_injective (counts : list Z) :
  forall indices indices' : list Z,
    validIndices counts indices -> validIndices counts indices' ->
    listIndex counts indices = listIndex counts indices' -> indices = indices'.
Proof.
  induction counts as [|c counts IH]; intros indices indices' H H' E.
  - inversion H. inversion H'. reflexivity.
  - inversion H as [|? i ? rest Hi Hrest]. inversion H' as [|? j ? rest' Hj Hrest']. subst.
    cbn [listIndex] in E.
    destruct (digits_unique (product counts) i j
                (listIndex counts rest) (listIndex counts rest')) as [-> Erest];
      auto using listIndex_range.
    f_equal. auto.
Qed.

Lemma variableIndices_valid (counts : list Z) :
  Forall (fun c => 1 <= c) counts ->
  forall offset : Z,
    0 <= offset < product counts ->
    validIndices counts (variableIndices counts offset) /\
    listIndex counts (variableIndices counts offset) = offset.
Proof.
  induction 1 as [|c counts Hc Hpos IH]; intros offset Hoff.
  - cbn in *. split; [constructor|lia].
  - rewrite product_cons in Hoff. pose proof (product_positive counts Hpos) as HP.
    destruct (IH (offset mod product counts)) as [Hv Hl];
      [apply Z.mod_pos_bound; lia|].
    cbn [variableIndices listIndex]. split.
    + constructor; [|exact Hv]. split.
      * apply Z.div_pos; lia.
      * apply Z.div_lt_upper_bound; lia.
    + rewrite Hl. rewrite (Z.div_mod offset (product counts)) at 3 by lia. lia.
Qed.

Lemma variableIndices_listIndex (counts indices : list Z) :
  validIndices counts indices ->
  variableIndices counts (listIndex counts indices) = indices.
Proof.
  intros H. pose proof (validIndices_positive _ _ H) as Hpos.
  destruct (variableIndices_valid counts Hpos (listIndex counts indices)
              (listIndex_range _ _ H)) as [Hv Hl].
  exact (listIndex_injective counts _ _ Hv H Hl).
Qed.

(** The member function returns [listIndex] of the object's sample counts
    and the tuple it is passed, and changes nothing. *)
Lemma variableIndicesToListIndex_listIndex
    (m : machine) (a : address) (counts indices : list Z) :
  sampleCounts m = Some counts ->
  loadInts (freeStore m) a (Z.to_nat (numberOfIndependentVariables_ (this m))) = Some indices ->
  variableIndicesToListIndex a m = Some (listIndex counts indices, m).
Proof. intros Hc Hi. unfold variableIndicesToListIndex. rewrite Hc, Hi. reflexivity. Qed.

(** C3: over sample counts that are all at least 1, the offset computed by
    [variableIndicesToListIndex], which is [listIndex] of the object's sample
    counts and the tuple passed, is a bijection from the valid index tuples
    onto the offsets below the product of the counts: every valid tuple is
    mapped into that range, no two valid tuples are mapped to the same
    offset, and every offset of the range is the image of a valid tuple, the
    one [variableIndices] computes, which also leads back from the offset of
    a valid tuple to that tuple. *)
Theorem variableIndicesToListIndex_bijection (counts : list Z) :
  Forall (fun c => 1 <= c) counts ->
  (forall (m : machine) (a : address) (indices : list Z),
     sampleCounts m = Some counts ->
     loadInts (freeStore m) a (Z.to_nat (numberOfIndependentVariables_ (this m)))
       = Some indices ->
     variableIndicesToListIndex a m = Some (listIndex counts indices, m)) /\
  (forall indices : list Z,
     validIndices counts indices -> 0 <= listIndex counts indices < product counts) /\
  (forall indices indices' : list Z,
     validIndices counts indices -> validIndices counts indices' ->
     listIndex counts indices = listIndex counts indices' -> indices = indices') /\
  (forall offset : Z,
     0 <= offset < product counts ->
     validIndices counts (variableIndices counts offset) /\
     listIndex counts (variableIndices counts offset) = offset) /\
  (forall indices : list Z,
     validIndices counts indices ->
     variableIndices counts (listIndex counts indices) = indices).
Proof.
  intros Hpos. split; [|split; [|split; [|split]]].
  - intros m a indices. apply variableIndicesToListIndex_listIndex.
  - intros indices. apply listIndex_range.
  - apply listIndex_injective.
  - apply variableIndices_valid. exact Hpos.
  - apply variableIndices_listIndex.
Qed.

Lemma variableIndicesToListIndex_bijection_witness :
  (forall indices : list Z,
     validIndices [3; 4] indices -> 0 <= listIndex [3; 4] indices < product [3; 4]) /\
  (forall indices indices' : list Z,
     validIndices [3; 4] indices -> validIndices [3; 4] indices' ->
     listIndex [3; 4] indices = listIndex [3; 4] indices' -> indices = indices') /\
  (forall offset : Z,
     0 <= offset < product [3; 4] ->
     validIndices [3; 4] (variableIndices [3; 4] offset) /\
     listIndex [3; 4] (variableIndices [3; 4] offset) = offset) /\
  (forall indices : list Z,
     validIndices [3; 4] indices ->
     variableIndices [3; 4] (listIndex [3; 4] indices) = indices).
Proof.
  apply (variableIndicesToListIndex_bijection [3; 4]).
  repeat constructor; lia.
Defined.

(** ** Sequences of calls *)

Lemma performAll_cons (c : call) (calls : list call) (m m' : machine) :
  performAll (c :: calls) m = Some (tt, m') <->
  exists m1 : machine, perform c m = Some (tt, m1) /\ performAll calls m1 = Some (tt, m').
Proof.
  cbn [performAll]. unfold bind. split.
  - destruct (perform c m) as [[[] m1]|]; [eauto|discriminate].
  - intros (m1 & -> & H). exact H.
Qed.

Lemma performAll_app (calls calls' : list call) :
  forall m m' : machine,
    performAll (calls ++ calls') m = Some (tt, m') <->
    exists m1 : machine,
      performAll calls m = Some (tt, m1) /\ performAll calls' m1 = Some (tt, m').
Proof.
  induction calls as [|c calls IH]; intros m m'.
  - cbn. split; [eauto|]. intros (m1 & H & H'). inversion H. subst. exact H'.
  - rewrite <- app_comm_cons, performAll_cons. split.
    + intros (m1 & Hc & Hrest). apply IH in Hrest as (m2 & H2 & H3).
      exists m2. rewrite performAll_cons. eauto.
    + intros (m2 & H2 & H3). apply performAll_cons in H2 as (m1 & Hc & Hrest).
      exists m1. split; [exact Hc|]. apply IH. eauto.
Qed.


(** The hand-written two-axis generator is laid out as the set-up lays a
    generator out; only the samples differ. *)
Example twoAxes_layout :
  this (machineAfter twoAxesSetup ∅ 16) = this twoAxes /\
  rowExtent (machineAfter twoAxesSetup ∅ 16) 0 = rowExtent twoAxes 0 /\
  rowExtent (machineAfter twoAxesSetup ∅ 16) 1 = rowExtent twoAxes 1 /\
  freeStoreTop (machineAfter twoAxesSetup ∅ 16) = freeStoreTop twoAxes.
Proof. repeat split; vm_compute; reflexivity. Qed.

(** ** The point setters in general *)

(** The point setters of the angle-of-attack, angle-of-sideslip and
    Reynolds-number roles store into the row of their own role: a value set
    at an index within the row is the value the getter of the same role
    returns afterwards. *)
Theorem point_setter_round_trip
    (m : machine) (r : role) (i : Z) (v : double) (ds : list double) :
  r <> Mach ->
  samples m (roleIndex (this m) r) = Some ds ->
  0 <= i -> (Z.to_nat i < length ds)%nat ->
  exists m' : machine,
    setRolePoint r i v m = Some (tt, m') /\
    getRolePoint r i m' = Some (v, m').
Proof.
  intros Hr Hs Hi Hlt.
  assert (writtenAxis (this m) r = roleIndex (this m) r) as Hw
    by (destruct r; [congruence|reflexivity..]).
  rewrite <- Hw in Hs.
  destruct (setRolePoint_effect m r i v ds Hs Hi Hlt) as (m' & Hset & Hthis & Hnew & _).
  exists m'. split; [exact Hset|].
  rewrite getRolePoint_generic, Hthis, <- Hw.
  apply (getIndependentVariablePoint_in_range m' _ i _ v Hnew Hi).
  apply list_lookup_insert_eq. exact Hlt.
Qed.

Lemma point_setter_round_trip_witness :
  exists m' : machine,
    setRolePoint AngleOfAttack 2 7.5%float twoAxes = Some (tt, m') /\
    getRolePoint AngleOfAttack 2 m' = Some (7.5%float, m').
Proof.
  apply (point_setter_round_trip twoAxes AngleOfAttack 2 7.5%float [-5; 0; 5; 10]%float).
  - discriminate.
  - vm_compute. reflexivity.
  - lia.
  - vm_compute. lia.
Defined.

(** The same three setters leave every axis that is stored apart from their
    own as it was. *)
Theorem point_setter_axis_isolation
    (m : machine) (r : role) (i : Z) (v : double) (ds : list double) (k' : Z) :
  r <> Mach ->
  samples m (roleIndex (this m) r) = Some ds ->
  0 <= i -> (Z.to_nat i < length ds)%nat ->
  apart m (roleIndex (this m) r) k' = true ->
  exists m' : machine,
    setRolePoint r i v m = Some (tt, m') /\
    samples m' k' = samples m k'.
Proof.
  intros Hr Hs Hi Hlt Hapart.
  assert (writtenAxis (this m) r = roleIndex (this m) r) as Hw
    by (destruct r; [congruence|reflexivity..]).
  rewrite <- Hw in Hs, Hapart.
  destruct (setRolePoint_effect m r i v ds Hs Hi Hlt) as (m' & Hset & _ & _ & Hframe).
  eauto.
Qed.

Lemma point_setter_axis_isolation_witness :
  exists m' : machine,
    setRolePoint AngleOfAttack 2 7.5%float twoAxes = Some (tt, m') /\
    samples m' 0 = samples twoAxes 0.
Proof.
  apply (point_setter_axis_isolation twoAxes AngleOfAttack 2 7.5%float [-5; 0; 5; 10]%float 0).
  - discriminate.
  - vm_compute. reflexivity.
  - lia.
  - vm_compute. lia.
  - reflexivity.
Defined.

(** [setMachPoint] in general: called with an index within the
    angle-of-attack row, it replaces that angle-of-attack sample, and when
    the Mach axis is stored apart from the angle-of-attack axis it leaves
    every Mach sample as it was. *)
Theorem setMachPoint_effect
    (m : machine) (i : Z) (v : double) (ds : list double) :
  samples m (angleOfAttackIndex_ (this m)) = Some ds ->
  0 <= i -> (Z.to_nat i < length ds)%nat ->
  exists m' : machine,
    setMachPoint i v m = Some (tt, m') /\
    samples m' (angleOfAttackIndex_ (this m)) = Some (<[Z.to_nat i := v]> ds) /\
    (apart m (angleOfAttackIndex_ (this m)) (machIndex_ (this m)) = true ->
     samples m' (machIndex_ (this m)) = samples m (machIndex_ (this m))).
Proof.
  intros Hs Hi Hlt.
  destruct (setRolePoint_effect m Mach i v ds Hs Hi Hlt) as (m' & Hset & _ & Hnew & Hframe).
  exists m'. split; [exact Hset|]. split; [exact Hnew|]. apply Hframe.
Qed.

Lemma setMachPoint_effect_witness :
  exists m' : machine,
    setMachPoint 1 1.5%float twoAxes = Some (tt, m') /\
    samples m' 1 = Some (<[Z.to_nat 1 := 1.5%float]> [-5; 0; 5; 10]%float) /\
    (apart twoAxes 1 0 = true -> samples m' 0 = samples twoAxes 0).
Proof.
  apply (setMachPoint_effect twoAxes 1 1.5%float [-5; 0; 5; 10]%float).
  - vm_compute. reflexivity.
  - lia.
  - vm_compute. lia.
Defined.

(** ** The scenario of section 8 *)

(** Two axes with three Mach samples and four angle-of-attack samples: the
    grid has twelve points, and the tuples (1,2) and (1,3) have the distinct
    offsets 6 and 7. *)
Example twoAxes_scenario :
  sampleCounts (machineAfter twoAxesSetup ∅ 16) = Some [3; 4] /\
  product [3; 4] = 12 /\
  listIndex [3; 4] [1; 2] = 6 /\ listIndex [3; 4] [1; 3] = 7 /\
  variableIndices [3; 4] 6 = [1; 2].
Proof. repeat split; vm_compute; reflexivity. Qed.

(** ** How the point accessors compose *)

(** What a returning point getter says about the free store: the row
    pointer of the axis is there, and a double at the index from it. *)
Lemma getIndependentVariablePoint_inv (m m' : machine) (k i : Z) (d : double) :
  getIndependentVariablePoint k i m = Some (d, m') ->
  m' = m /\
  exists row : address,
    freeStore m !! (dataPointsOfIndependentVariables_ (this m) + k) = Some (Pointer row) /\
    freeStore m !! (row + i) = Some (Double d).
Proof.
  unfold getIndependentVariablePoint, bind at 1, self. unfold bind.
  destruct (loadPointer (dataPointsOfIndependentVariables_ (this m) + k) m)
    as [[row m1]|] eqn:Hrow; [|discriminate].
  apply loadPointer_inv in Hrow as [-> Hrow]. intros H.
  apply loadDouble_inv in H as [-> Hd]. eauto.
Qed.

Lemma assignSample_at (m : machine) (k i : Z) (v : double) (row : address) (o : object) :
  freeStore m !! (dataPointsOfIndependentVariables_ (this m) + k) = Some (Pointer row) ->
  freeStore m !! (row + i) = Some o ->
  assignSample k i v m = Some (tt, poke (row + i) (Double v) m).
Proof. intros Hrow Ho. unfold assignSample. rewrite Hrow, Ho. reflexivity. Qed.

Lemma poke_same (m : machine) (a : address) (o : object) :
  freeStore m !! a = Some o -> poke a o m = m.
Proof.
  intros H. destruct m as [g h top]. unfold poke. cbn in *.
  rewrite (insert_id h a o H). reflexivity.
Qed.


Lemma poke_commute (m : machine) (a b : address) (o o' : object) :
  a <> b -> poke a o (poke b o' m) = poke b o' (poke a o m).
Proof. intros H. unfold poke. cbn. rewrite (insert_insert_ne _ a b) by exact H. reflexivity. Qed.

(** Overwriting a double changes no pointer and no int, and no address
    loses its object. *)
Section PokeDouble.

Variables (m : machine) (a : address) (u d0 : double).
Hypothesis Ha : freeStore m !! a = Some (Double d0).

Lemma poke_double_pointer (b p : address) :
  freeStore (poke a (Double u) m) !! b = Some (Pointer p) <->
  freeStore m !! b = Some (Pointer p).
Proof.
  unfold poke. cbn. rewrite lookup_insert. destruct (decide (a = b)) as [<-|_].
  - rewrite Ha. split; discriminate.
  - reflexivity.
Qed.

Lemma poke_double_int (b : address) (c : Z) :
  freeStore (poke a (Double u) m) !! b = Some (Int c) <->
  freeStore m !! b = Some (Int c).
Proof.
  unfold poke. cbn. rewrite lookup_insert. destruct (decide (a = b)) as [<-|_].
  - rewrite Ha. split; discriminate.
  - reflexivity.
Qed.

Lemma poke_double_double (b : address) (d : double) :
  freeStore m !! b = Some (Double d) ->
  exists d' : double, freeStore (poke a (Double u) m) !! b = Some (Double d').
Proof.
  intros Hb. unfold poke. cbn. rewrite lookup_insert.
  destruct (decide (a = b)); eauto.
Qed.

Lemma assignSample_after_poke (k i : Z) (v d : double) (row : address) :
  freeStore m !! (dataPointsOfIndependentVariables_ (this m) + k) = Some (Pointer row) ->
  freeStore m !! (row + i) = Some (Double d) ->
  assignSample k i v (poke a (Double u) m)
    = Some (tt, poke (row + i) (Double v) (poke a (Double u) m)).
Proof.
  intros Hrow Hd.
  destruct (poke_double_double (row + i) d Hd) as [d' Hd'].
  apply (assignSample_at _ k i v row (Double d')); [|exact Hd'].
  apply poke_double_pointer. exact Hrow.
Qed.

Lemma loadDoubles_poke_double (n : nat) :
  forall (b : address) (ds : list double),
    loadDoubles (freeStore m) b n = Some ds ->
    exists ds' : list double,
      loadDoubles (freeStore (poke a (Double u) m)) b n = Some ds' /\
      length ds' = length ds.
Proof.
  induction n as [|n IH]; intros b ds; cbn [loadDoubles].
  - intros H. inversion H. exists []. auto.
  - destruct (freeStore m !! b) as [[c|d|p]|] eqn:Hb; try discriminate.
    destruct (loadDoubles (freeStore m) (b + 1) n) as [rest|] eqn:E; [|discriminate].
    intros H. inversion H. subst ds.
    destruct (poke_double_double b d Hb) as [d' Hd'].
    destruct (IH (b + 1) rest E) as (rest' & Hrest' & Hlen).
    exists (d' :: rest'). rewrite Hd', Hrest'. cbn. auto.
Qed.

End PokeDouble.

(** Writing back the value a point getter has just returned changes
    nothing: when [getIndependentVariablePoint] returns [d] at an index of
    the row a point setter selects, that setter called with the same index
    and [d] returns and leaves the very same machine.  No range is asked
    for: the getter having returned is enough. *)
Theorem point_setter_write_back
    (m m' : machine) (r : role) (i : Z) (d : double) :
  getIndependentVariablePoint (writtenAxis (this m) r) i m = Some (d, m') ->
  setRolePoint r i d m = Some (tt, m).
Proof.
  intros H. apply getIndependentVariablePoint_inv in H as (_ & row & Hrow & Hd).
  rewrite setRolePoint_assignSample, (assignSample_at m _ i d row _ Hrow Hd).
  rewrite (poke_same m _ _ Hd). reflexivity.
Qed.

Lemma point_setter_write_back_witness :
  setRolePoint AngleOfAttack 2 5%float twoAxes = Some (tt, twoAxes).
Proof.
  apply (point_setter_write_back twoAxes twoAxes AngleOfAttack 2 5%float).
  vm_compute. reflexivity.
Defined.



(** Where a sample of an axis lies in the free store. *)
Lemma sample_cell (m : machine) (k i : Z) (ds : list double) :
  samples m k = Some ds -> 0 <= i -> (Z.to_nat i < length ds)%nat ->
  exists (row : address) (d : double),
    rowExtent m k = Some (row, Z.of_nat (length ds)) /\
    freeStore m !! (dataPointsOfIndependentVariables_ (this m) + k) = Some (Pointer row) /\
    freeStore m !! (row + i) = Some (Double d).
Proof.
  intros Hs Hi Hlt.
  destruct (samples_rowExtent _ _ _ Hs) as (row & Hext & Hrow).
  destruct (samples_inv _ _ _ Hs) as (row0 & _ & Hrow0 & Hds).
  rewrite Hrow in Hrow0. inversion Hrow0. subst row0.
  destruct (lookup_lt_is_Some_2 ds (Z.to_nat i) Hlt) as [d Hd].
  pose proof (loadDoubles_lookup _ _ _ _ _ _ Hds Hd) as Hcell.
  rewrite Z2Nat.id in Hcell by exact Hi. eauto.
Qed.

(** Two point sets at different samples commute: for indices within the
    rows the two setters select, which are either one row at two different
    indices or the rows of two axes stored apart, both orders of the two
    calls return and leave the same machine. *)
Theorem point_setters_commute
    (m : machine) (r r' : role) (i j : Z) (v w : double) (ds ds' : list double) :
  samples m (writtenAxis (this m) r) = Some ds ->
  samples m (writtenAxis (this m) r') = Some ds' ->
  0 <= i -> (Z.to_nat i < length ds)%nat ->
  0 <= j -> (Z.to_nat j < length ds')%nat ->
  (writtenAxis (this m) r = writtenAxis (this m) r' /\ i <> j) \/
  apart m (writtenAxis (this m) r) (writtenAxis (this m) r') = true ->
  exists m1 m2 m12 : machine,
    setRolePoint r i v m = Some (tt, m1) /\
    setRolePoint r' j w m = Some (tt, m2) /\
    setRolePoint r' j w m1 = Some (tt, m12) /\
    setRolePoint r i v m2 = Some (tt, m12).
Proof.
  intros Hs Hs' Hi Hlt Hj Hlt' Hsep.
  destruct (sample_cell m _ i ds Hs Hi Hlt) as (row & d & Hext & Hrow & Hd).
  destruct (sample_cell m _ j ds' Hs' Hj Hlt') as (row' & e & Hext' & Hrow' & He).
  assert (row + i <> row' + j) as Hne.
  { destruct Hsep as [[Hk Hij]|Hapart].
    - rewrite Hk in Hrow. rewrite Hrow in Hrow'. inversion Hrow'. lia.
    - unfold apart in Hapart. rewrite Hext, Hext' in Hapart.
      apply orb_true_iff in Hapart. rewrite !Z.leb_le in Hapart. lia. }
  exists (poke (row + i) (Double v) m), (poke (row' + j) (Double w) m),
         (poke (row' + j) (Double w) (poke (row + i) (Double v) m)).
  rewrite !setRolePoint_assignSample. cbn [this poke].
  rewrite (assignSample_at m _ i v row _ Hrow Hd).
  rewrite (assignSample_at m _ j w row' _ Hrow' He).
  rewrite (assignSample_after_poke m (row + i) v d Hd _ j w e row' Hrow' He).
  rewrite (assignSample_after_poke m (row' + j) w e He _ i v d row Hrow Hd).
  rewrite (poke_commute m (row + i) (row' + j)) by exact Hne. auto.
Qed.

Lemma point_setters_commute_witness :
  exists m1 m2 m12 : machine,
    setRolePoint AngleOfAttack 1 7%float twoAxes = Some (tt, m1) /\
    setRolePoint AngleOfSideslip 2 8%float twoAxes = Some (tt, m2) /\
    setRolePoint AngleOfSideslip 2 8%float m1 = Some (tt, m12) /\
    setRolePoint AngleOfAttack 1 7%float m2 = Some (tt, m12).
Proof.
  apply (point_setters_commute twoAxes AngleOfAttack AngleOfSideslip 1 2 7%float 8%float
           [-5; 0; 5; 10]%float [0.5; 1; 2]%float).
  - vm_compute. reflexivity.
  - vm_compute. reflexivity.
  - lia.
  - vm_compute. lia.
  - lia.
  - vm_compute. lia.
  - right. reflexivity.
Defined.

(** A point set within range never changes the shape of the grid: called
    with an index within the row it selects, a point setter returns, leaves
    the members of the object as they were, and leaves every axis that had
    storage with storage of the same length and with the same sample count,
    which the count getter returns as before. *)
Theorem point_setter_keeps_grid_shape
    (m : machine) (r : role) (i : Z) (v : double) (ds : list double) :
  samples m (writtenAxis (this m) r) = Some ds ->
  0 <= i -> (Z.to_nat i < length ds)%nat ->
  exists m' : machine,
    setRolePoint r i v m = Some (tt, m') /\
    this m' = this m /\
    forall (k : Z) (ds' : list double),
      samples m k = Some ds' ->
      getNumberOfValuesOfIndependentVariable k m = Some (Z.of_nat (length ds'), m) /\
      getNumberOfValuesOfIndependentVariable k m' = Some (Z.of_nat (length ds'), m') /\
      exists ds'' : list double, samples m' k = Some ds'' /\ length ds'' = length ds'.
Proof.
  intros Hs Hi Hlt.
  destruct (sample_cell m _ i ds Hs Hi Hlt) as (row & d & _ & Hrow & Hd).
  exists (poke (row + i) (Double v) m).
  rewrite setRolePoint_assignSample, (assignSample_at m _ i v row _ Hrow Hd).
  split; [reflexivity|]. split; [reflexivity|].
  intros k ds' Hs'.
  assert (exists ds'' : list double,
            samples (poke (row + i) (Double v) m) k = Some ds'' /\
            length ds'' = length ds') as (ds'' & Hs'' & Hlen).
  { destruct (samples_inv _ _ _ Hs') as (row' & Hc & Hrow' & Hds).
    destruct (loadDoubles_poke_double m (row + i) v _ _ _ Hds) as (ds'' & Hds'' & Hlen).
    exists ds''. split; [|exact Hlen]. unfold samples.
    apply (poke_double_int m (row + i) v d Hd) in Hc.
    apply (poke_double_pointer m (row + i) v d Hd) in Hrow'.
    cbn [this poke] in *. rewrite Hc, Hrow'.
    replace (0 <=? Z.of_nat (length ds')) with true by (symmetry; apply Z.leb_le; lia).
    rewrite Nat2Z.id. exact Hds''. }
  split; [exact (getNumberOfValuesOfIndependentVariable_allocated m k ds' Hs')|].
  split; [|eauto].
  rewrite <- Hlen.
  exact (getNumberOfValuesOfIndependentVariable_allocated _ k ds'' Hs'').
Qed.

Lemma point_setter_keeps_grid_shape_witness :
  exists m' : machine,
    setRolePoint Mach 3 9%float twoAxes = Some (tt, m') /\
    this m' = this twoAxes /\
    forall (k : Z) (ds' : list double),
      samples twoAxes k = Some ds' ->
      getNumberOfValuesOfIndependentVariable k twoAxes = Some (Z.of_nat (length ds'), twoAxes) /\
      getNumberOfValuesOfIndependentVariable k m' = Some (Z.of_nat (length ds'), m') /\
      exists ds'' : list double, samples m' k = Some ds'' /\ length ds'' = length ds'.
Proof.
  apply (point_setter_keeps_grid_shape twoAxes Mach 3 9%float [-5; 0; 5; 10]%float).
  - vm_compute. reflexivity.
  - lia.
  - vm_compute. lia.
Defined.

(** Reading after writing: after a point set at an index within the row the
    setter selects, the point getter of every role that holds the index of
    that row returns the value set at that index, and at every other index
    of the row the sample that was there before.  So a value set with
    [setMachPoint] is read back by [getAngleOfAttackPoint], and by
    [getMachPoint] when the two roles hold the same axis index. *)
Theorem read_after_write
    (m : machine) (r r' : role) (i : Z) (v : double) (ds : list double) :
  samples m (writtenAxis (this m) r) = Some ds ->
  0 <= i -> (Z.to_nat i < length ds)%nat ->
  roleIndex (this m) r' = writtenAxis (this m) r ->
  exists m' : machine,
    setRolePoint r i v m = Some (tt, m') /\
    getRolePoint r' i m' = Some (v, m') /\
    forall (j : Z) (d : double),
      0 <= j -> j <> i -> ds !! Z.to_nat j = Some d ->
      getRolePoint r' j m' = Some (d, m').
Proof.
  intros Hs Hi Hlt Hr'.
  destruct (setRolePoint_effect m r i v ds Hs Hi Hlt) as (m' & Hset & Hthis & Hnew & _).
  exists m'. split; [exact Hset|]. split.
  - rewrite getRolePoint_generic, Hthis, Hr'.
    apply (getIndependentVariablePoint_in_range m' _ i _ v Hnew Hi).
    apply list_lookup_insert_eq. exact Hlt.
  - intros j d Hj Hji Hd. rewrite getRolePoint_generic, Hthis, Hr'.
    apply (getIndependentVariablePoint_in_range m' _ j _ d Hnew Hj).
    rewrite list_lookup_insert_ne by lia. exact Hd.
Qed.

Lemma read_after_write_witness :
  exists m' : machine,
    setRolePoint Mach 1 1.5%float twoAxes = Some (tt, m') /\
    getRolePoint AngleOfAttack 1 m' = Some (1.5%float, m') /\
    forall (j : Z) (d : double),
      0 <= j -> j <> 1 -> [-5; 0; 5; 10]%float !! Z.to_nat j = Some d ->
      getRolePoint AngleOfAttack j m' = Some (d, m').
Proof.
  apply (read_after_write twoAxes Mach AngleOfAttack 1 1.5%float [-5; 0; 5; 10]%float).
  - vm_compute. reflexivity.
  - lia.
  - vm_compute. lia.
  - reflexivity.
Defined.

(** ** The accessors before any set-up *)

(** On a freshly constructed generator every role-named accessor goes
    through a null table: with no object at the null address, the point
    getter, the point setter and the count getter of every role fault, for
    every index and value, and so do the generic getters on axis 0. *)
Theorem fresh_generator_accessors_fault
    (h : gmap Z object) (top : address) (r : role) (i : Z) (v : double) :
  h !! NULL = None ->
  getRolePoint r i (AerodynamicCoefficientGenerator_ctor h top) = None /\
  setRolePoint r i v (AerodynamicCoefficientGenerator_ctor h top) = None /\
  getNumberOfRolePoints r (AerodynamicCoefficientGenerator_ctor h top) = None /\
  getIndependentVariablePoint 0 i (AerodynamicCoefficientGenerator_ctor h top) = None /\
  getNumberOfValuesOfIndependentVariable 0 (AerodynamicCoefficientGenerator_ctor h top) = None.
Proof.
  intros Hnull. unfold NULL in Hnull.
  repeat split; try destruct r;
    cbv [getRolePoint setRolePoint getNumberOfRolePoints
         getMachPoint getAngleOfAttackPoint getAngleOfSideslipPoint getReynoldsNumberPoint
         setMachPoint setAngleOfAttackPoint setAngleOfSideslipPoint setReynoldsNumberPoint
         getNumberOfMachPoints getNumberOfAngleOfAttackPoints
         getNumberOfAngleOfSideslipPoints getNumberOfReynoldsNumberPoints
         getIndependentVariablePoint getNumberOfValuesOfIndependentVariable
         loadPointer loadInt bind self load AerodynamicCoefficientGenerator_ctor
         this freeStore dataPointsOfIndependentVariables_
         numberOfPointsPerIndependentVariables_ machIndex_ angleOfAttackIndex_
         angleOfSideslipIndex_ reynoldsNumberIndex_ NULL Z.opp Z.add];
    rewrite Hnull; reflexivity.
Qed.

Lemma fresh_generator_accessors_fault_witness :
  getRolePoint Mach 0 (AerodynamicCoefficientGenerator_ctor ∅ 16) = None /\
  setRolePoint Mach 0 0.5%float (AerodynamicCoefficientGenerator_ctor ∅ 16) = None /\
  getNumberOfRolePoints Mach (AerodynamicCoefficientGenerator_ctor ∅ 16) = None /\
  getIndependentVariablePoint 0 0 (AerodynamicCoefficientGenerator_ctor ∅ 16) = None /\
  getNumberOfValuesOfIndependentVariable 0 (AerodynamicCoefficientGenerator_ctor ∅ 16) = None.
Proof.
  apply (fresh_generator_accessors_fault ∅ 16 Mach 0 0.5%float).
  reflexivity.
Defined.

(** ** Accesses within and outside a row *)

(** C5, as stated, fails: nothing checks an index.  On the two-axis
    generator, whose Mach axis has three samples, reading index 3 of axis 0
    returns normally, with the first angle-of-attack sample; and writing
    index -1 of the angle-of-attack axis returns normally after replacing
    the last Mach sample. *)
Lemma out_of_range_access_is_not_trapped :
  samples twoAxes 0 = Some [0.5; 1; 2]%float /\
  samples twoAxes 1 = Some [-5; 0; 5; 10]%float /\
  getIndependentVariablePoint 0 3 twoAxes = Some ((-5)%float, twoAxes) /\
  exists m' : machine,
    setAngleOfAttackPoint (-1) 9%float twoAxes = Some (tt, m') /\
    samples m' 0 = Some [0.5; 1; 9]%float.
Proof.
  do 3 (split; [vm_compute; reflexivity|]).
  eexists. split; vm_compute; reflexivity.
Qed.

(** A point getter returns the double at the index from the row pointer,
    whatever the index. *)
Lemma getIndependentVariablePoint_at (m : machine) (k j : Z) (row : address) (e : double) :
  freeStore m !! (dataPointsOfIndependentVariables_ (this m) + k) = Some (Pointer row) ->
  freeStore m !! (row + j) = Some (Double e) ->
  getIndependentVariablePoint k j m = Some (e, m).
Proof.
  intros Hrow He. unfold getIndependentVariablePoint, bind at 1, self. unfold bind.
  rewrite (loadPointer_at _ _ _ Hrow). exact (loadDouble_at _ _ _ He).
Qed.

(** C5, amended: the accessors check no index, and an access within range
    is never a fault.  When axis [k] has storage [ds], in a row that starts
    at [row], and [i] is an index of [ds]:
    - the generic point getter and the point getter of every role on [k]
      return the stored sample and the machine as it was;
    - the point setter of every role on [k] other than Mach returns and
      replaces exactly that sample: the machine it leaves is the one it
      found with the double at address [row + i] replaced, so the object,
      the extent of the free store and the object at every other address
      are as before, axis [k] has the new sample at [i] and its other
      samples as before, and every axis stored apart from [k] is as before;
    - an index outside the count is not treated differently: at every index
      [j], in range or not, at which the address [row + j] holds a double,
      the getters return that double and those setters replace it. *)
Theorem in_range_access_is_defined
    (m : machine) (k i : Z) (ds : list double) (d : double) :
  samples m k = Some ds -> 0 <= i -> ds !! Z.to_nat i = Some d ->
  exists row : address,
    rowExtent m k = Some (row, Z.of_nat (length ds)) /\
    getIndependentVariablePoint k i m = Some (d, m) /\
    (forall r : role, roleIndex (this m) r = k -> getRolePoint r i m = Some (d, m)) /\
    (forall (r : role) (v : double), r <> Mach -> roleIndex (this m) r = k ->
       exists m' : machine,
         setRolePoint r i v m = Some (tt, m') /\
         m' = poke (row + i) (Double v) m /\
         this m' = this m /\
         freeStoreTop m' = freeStoreTop m /\
         freeStore m' !! (row + i) = Some (Double v) /\
         (forall b : address, b <> row + i -> freeStore m' !! b = freeStore m !! b) /\
         samples m' k = Some (<[Z.to_nat i := v]> ds) /\
         (forall k' : Z, apart m k k' = true -> samples m' k' = samples m k')) /\
    (forall (j : Z) (e : double),
       freeStore m !! (row + j) = Some (Double e) ->
       getIndependentVariablePoint k j m = Some (e, m) /\
       (forall r : role, roleIndex (this m) r = k -> getRolePoint r j m = Some (e, m)) /\
       (forall (r : role) (v : double), r <> Mach -> roleIndex (this m) r = k ->
          setRolePoint r j v m = Some (tt, poke (row + j) (Double v) m))).
Proof.
  intros Hs Hi Hd.
  pose proof (lookup_lt_Some _ _ _ Hd) as Hlt.
  destruct (sample_cell m k i ds Hs Hi Hlt) as (row & d0 & Hext & Hrow & Hcell).
  pose proof (getIndependentVariablePoint_in_range m k i ds d Hs Hi Hd) as Hget.
  assert (forall (r : role) (j : Z) (v e : double),
            r <> Mach -> roleIndex (this m) r = k ->
            freeStore m !! (row + j) = Some (Double e) ->
            setRolePoint r j v m = Some (tt, poke (row + j) (Double v) m)) as Hstore.
  { intros r j v e Hr Hk He.
    assert (writtenAxis (this m) r = k) as Hw by (destruct r; [congruence|exact Hk..]).
    rewrite setRolePoint_assignSample, Hw.
    exact (assignSample_at m k j v row _ Hrow He). }
  exists row. split; [exact Hext|]. split; [exact Hget|]. split; [|split].
  - intros r Hr. rewrite getRolePoint_generic, Hr. exact Hget.
  - intros r v Hr Hk. exists (poke (row + i) (Double v) m).
    split; [exact (Hstore r i v d0 Hr Hk Hcell)|].
    split; [reflexivity|]. split; [reflexivity|]. split; [reflexivity|].
    split; [apply lookup_insert_eq|].
    split; [intros b Hb; cbn [poke freeStore]; apply lookup_insert_ne; congruence|].
    split.
    + exact (samples_poke_inside m (row + i) v k i ds row Hs Hrow Hi Hlt eq_refl).
    + intros k' Hapart. unfold apart in Hapart. rewrite Hext in Hapart.
      destruct (rowExtent m k') as [[row' c']|] eqn:Hext'; [|discriminate].
      apply (samples_poke_outside m (row + i) v d0 k' row' c' Hcell Hext').
      apply orb_true_iff in Hapart. rewrite !Z.leb_le in Hapart. lia.
  - intros j e He.
    pose proof (getIndependentVariablePoint_at m k j row e Hrow He) as Hgetj.
    split; [exact Hgetj|]. split.
    + intros r Hr. rewrite getRolePoint_generic, Hr. exact Hgetj.
    + intros r v Hr Hk. exact (Hstore r j v e Hr Hk He).
Qed.

Lemma in_range_access_is_defined_witness :
  exists row : address,
    rowExtent twoAxes 1 = Some (row, Z.of_nat (length [-5; 0; 5; 10]%float)) /\
    getIndependentVariablePoint 1 2 twoAxes = Some (5%float, twoAxes) /\
    (forall r : role, roleIndex (this twoAxes) r = 1 ->
       getRolePoint r 2 twoAxes = Some (5%float, twoAxes)) /\
    (forall (r : role) (v : double), r <> Mach -> roleIndex (this twoAxes) r = 1 ->
       exists m' : machine,
         setRolePoint r 2 v twoAxes = Some (tt, m') /\
         m' = poke (row + 2) (Double v) twoAxes /\
         this m' = this twoAxes /\
         freeStoreTop m' = freeStoreTop twoAxes /\
         freeStore m' !! (row + 2) = Some (Double v) /\
         (forall b : address, b <> row + 2 -> freeStore m' !! b = freeStore twoAxes !! b) /\
         samples m' 1 = Some (<[Z.to_nat 2 := v]> [-5; 0; 5; 10]%float) /\
         (forall k' : Z, apart twoAxes 1 k' = true -> samples m' k' = samples twoAxes k')) /\
    (forall (j : Z) (e : double),
       freeStore twoAxes !! (row + j) = Some (Double e) ->
       getIndependentVariablePoint 1 j twoAxes = Some (e, twoAxes) /\
       (forall r : role, roleIndex (this twoAxes) r = 1 ->
          getRolePoint r j twoAxes = Some (e, twoAxes)) /\
       (forall (r : role) (v : double), r <> Mach -> roleIndex (this twoAxes) r = 1 ->
          setRolePoint r j v twoAxes = Some (tt, poke (row + j) (Double v) twoAxes))).
Proof.
  apply (in_range_access_is_defined twoAxes 1 2 [-5; 0; 5; 10]%float 5%float).
  - vm_compute. reflexivity.
  - lia.
  - reflexivity.
Defined.

(** ** The role registry *)






